(** * Card number validation and classification (go.stripe, card.go)

    A shallow embedding of [LuhnValid] and [CardType] together with the
    pieces of the Go runtime and standard library they call: machine
    integers, string slicing, [strings.Split] with an empty separator and
    [strconv.Atoi]; and of the requests the charge and invoice clients of
    charge.go build, with [strconv.Itoa], [strconv.FormatInt],
    [url.QueryEscape] and [url.Values].

    Go strings are byte sequences; they are modelled by [string], whose
    elements ([ascii]) are exactly the 256 byte values. *)

From Stdlib Require Import ZArith List String Ascii Bool Lia.
Import ListNotations.

Open Scope string_scope.
Open Scope Z_scope.

(** ** Go's [int] on a 64-bit target: two's complement with wrap-around *)

Module GoInt.

Definition minInt : Z := - 2 ^ 63.
Definition maxInt : Z := 2 ^ 63 - 1.

Definition wrap (z : Z) : Z := (z + 2 ^ 63) mod 2 ^ 64 - 2 ^ 63.

Definition add (x y : Z) : Z := wrap (x + y).
Definition sub (x y : Z) : Z := wrap (x - y).
Definition mul (x y : Z) : Z := wrap (x * y).

(** [%] truncates toward zero. *)
Definition rem (x y : Z) : Z := Z.rem x y.

Definition inRange (z : Z) : Prop := minInt <= z <= maxInt.

End GoInt.

(** ** Bytes *)

Definition byteZ (c : ascii) : Z := Z.of_N (N_of_ascii c).

Definition between (lo hi b : Z) : bool := (lo <=? b) && (b <=? hi).

(** A byte is a decimal digit when it lies in ['0'..'9']. *)
Definition isDigit (c : ascii) : bool := between 48 57 (byteZ c).

Definition digitVal (c : ascii) : Z := byteZ c - 48.

Fixpoint allDigits (s : string) : bool :=
  match s with
  | EmptyString => true
  | String c t => isDigit c && allDigits t
  end.

(** ** unicode/utf8: the width in bytes of the first rune of a string *)

Module Utf8.

(** The [first] table of the decoder: for a leading byte, the length of
    the sequence it announces and the range accepted for the second
    byte.  ASCII and invalid leading bytes have length 1. *)
Definition first (b : Z) : nat * (Z * Z) :=
  if b <? 0x80 then (1%nat, (0, 0))
  else if b <? 0xC2 then (1%nat, (0, 0))
  else if b <? 0xE0 then (2%nat, (0x80, 0xBF))
  else if b =? 0xE0 then (3%nat, (0xA0, 0xBF))
  else if b <? 0xED then (3%nat, (0x80, 0xBF))
  else if b =? 0xED then (3%nat, (0x80, 0x9F))
  else if b <? 0xF0 then (3%nat, (0x80, 0xBF))
  else if b =? 0xF0 then (4%nat, (0x90, 0xBF))
  else if b <? 0xF4 then (4%nat, (0x80, 0xBF))
  else if b =? 0xF4 then (4%nat, (0x80, 0x8F))
  else (1%nat, (0, 0)).

Definition isCont (c : ascii) : bool := between 0x80 0xBF (byteZ c).

(** The size component of [DecodeRuneInString]: a malformed or truncated
    sequence decodes as one byte. *)
Definition runeSize (s : string) : nat :=
  match s with
  | EmptyString => 0%nat
  | String s0 t =>
      let '(sz, (lo, hi)) := first (byteZ s0) in
      if (sz =? 1)%nat then 1%nat
      else if (String.length s <? sz)%nat then 1%nat
      else
        match t with
        | EmptyString => 1%nat
        | String s1 t1 =>
            if negb (between lo hi (byteZ s1)) then 1%nat
            else if (sz <=? 2)%nat then 2%nat
            else
              match t1 with
              | EmptyString => 1%nat
              | String s2 t2 =>
                  if negb (isCont s2) then 1%nat
                  else if (sz <=? 3)%nat then 3%nat
                  else
                    match t2 with
                    | EmptyString => 1%nat
                    | String s3 _ => if negb (isCont s3) then 1%nat else 4%nat
                    end
              end
        end
  end.

End Utf8.

(** ** strings.Split(s, "") *)

Module Strings.

(** [explode]: one string per UTF-8 sequence of [s], in order.  The
    cursor advances by the size of the rune just cut; [skip] counts the
    bytes of that rune still to be passed over. *)
Fixpoint explodeFrom (skip : nat) (s : string) : list string :=
  match s with
  | EmptyString => []
  | String _ t =>
      match skip with
      | S k => explodeFrom k t
      | O =>
          let size := Utf8.runeSize s in
          substring 0 size s :: explodeFrom (size - 1) t
      end
  end.

(** [Split] with the empty separator splits after each UTF-8 sequence. *)
Definition SplitChars (s : string) : list string := explodeFrom 0 s.

End Strings.

(** ** strconv.Atoi *)

Module Strconv.

Inductive ErrKind := ErrSyntax | ErrRange.

(** [*strconv.NumError] *)
Record NumError := mkNumError { Func : string; Num : string; Err : ErrKind }.

(** Go's [error] interface value: [None] is [nil]. *)
Definition error := option NumError.

Definition syntaxError (fn s : string) : NumError := mkNumError fn s ErrSyntax.
Definition rangeError (fn s : string) : NumError := mkNumError fn s ErrRange.

(** The digits of an unsigned decimal numeral; [None] on a byte that is
    not a digit. *)
Fixpoint parseDigits (acc : Z) (s : string) : option Z :=
  match s with
  | EmptyString => Some acc
  | String c t => if isDigit c then parseDigits (acc * 10 + digitVal c) t else None
  end.

(** [Atoi s]: an optional sign followed by one or more decimal digits,
    within the range of [int]. *)
Definition Atoi (s : string) : Z * error :=
  match s with
  | EmptyString => (0, Some (syntaxError "Atoi" s))
  | String c t =>
      let neg := Ascii.eqb c "-" in
      let body := if Ascii.eqb c "+" || neg then t else s in
      match body with
      | EmptyString => (0, Some (syntaxError "Atoi" s))
      | _ =>
          match parseDigits 0 body with
          | None => (0, Some (syntaxError "Atoi" s))
          | Some un =>
              if negb neg && (un >=? 2 ^ 63) then (GoInt.maxInt, Some (rangeError "Atoi" s))
              else if neg && (un >? 2 ^ 63) then (GoInt.minInt, Some (rangeError "Atoi" s))
              else ((if neg then - un else un), None)
          end
      end
  end.

End Strconv.

Import Strconv.

(** ** LuhnValid *)

(** The [for] loop of [LuhnValid].  The counter [n] is [i + 1] for the
    loop index [i], so the loop test [i >= 0] is [n > 0]; the loop exits to
    the final [return sum % 10 == 0, nil].  The loop starts at
    [len(digits) - 1], so [digits[i]] is always in range and the default of
    [nth] is never returned. *)
Fixpoint luhnLoop (digits : list string) (n : nat) (even : bool) (sum : Z)
  : bool * error :=
  match n with
  | O => (GoInt.rem sum 10 =? 0, None)
  | S i =>
      let (digit, err) := Atoi (nth i digits "") in
      match err with
      | Some e => (false, Some e)
      | None =>
          let sum' :=
            if even && (digit >? 4) then GoInt.add sum (GoInt.sub (GoInt.mul digit 2) 9)
            else if even then GoInt.add sum (GoInt.mul digit 2)
            else if negb even then GoInt.add sum digit
            else sum in
          luhnLoop digits i (negb even) sum'
      end
  end.

Definition LuhnValid (card : string) : bool * error :=
  let sum := 0 in
  let digits := Strings.SplitChars card in
  luhnLoop digits (List.length digits) false sum.

(** ** CardType

    The card types are the string constants of the source.  Leaving an
    inner [switch] without a match leaves the outer one as well (there is
    no fall-through in Go) and reaches the final [return UnknownCard]. *)

Definition AmericanExpress := "American Express".
Definition DinersClub := "Diners Club".
Definition Discover := "Discover".
Definition JCB := "JCB".
Definition MasterCard := "MasterCard".
Definition Visa := "Visa".
Definition UnknownCard := "Unknown".

(** A computation that either returns or stops with a run-time panic. *)
Inductive result (A : Type) : Type :=
| Ok (a : A)
| Panic.
Arguments Ok {A} a.
Arguments Panic {A}.

Definition bind {A B} (r : result A) (k : A -> result B) : result B :=
  match r with
  | Ok a => k a
  | Panic => Panic
  end.

Notation "x <- r ;; k" := (bind r (fun x => k))
  (at level 61, r at next level, right associativity).

(** [s[lo:hi]] panics unless [lo <= hi <= len(s)]. *)
Definition slice (s : string) (lo hi : nat) : result string :=
  if ((lo <=? hi) && (hi <=? String.length s))%nat
  then Ok (substring lo (hi - lo) s)
  else Panic.

(** [case v1, v2, ...:] of an expression switch on strings. *)
Definition oneOf (x : string) (vs : list string) : bool :=
  existsb (String.eqb x) vs.

Definition CardType (card : string) : result string :=
  p1 <- slice card 0 1 ;;
  if oneOf p1 ["4"] then Ok Visa
  else if oneOf p1 ["2"; "1"] then
    p4 <- slice card 0 4 ;;
    if oneOf p4 ["2131"; "1800"] then Ok JCB
    else Ok UnknownCard
  else if oneOf p1 ["6"] then
    p4 <- slice card 0 4 ;;
    if oneOf p4 ["6011"] then Ok Discover
    else Ok UnknownCard
  else if oneOf p1 ["5"] then
    p2 <- slice card 0 2 ;;
    if oneOf p2 ["51"; "52"; "53"; "54"; "55"] then Ok MasterCard
    else Ok UnknownCard
  else if oneOf p1 ["3"] then
    p2 <- slice card 0 2 ;;
    if oneOf p2 ["34"; "37"] then Ok AmericanExpress
    else if oneOf p2 ["36"] then Ok DinersClub
    else if oneOf p2 ["30"] then
      p3 <- slice card 0 3 ;;
      if oneOf p3 ["300"; "301"; "302"; "303"; "304"; "305"] then Ok DinersClub
      else Ok UnknownCard
    else Ok JCB
  else Ok UnknownCard.

(** ** The checksum as the specification words it *)

(** The contribution of one digit: doubled when the flag is set, reduced
    by 9 when the product exceeds 9, unchanged otherwise. *)
Definition luhnTerm (double : bool) (d : Z) : Z :=
  if double then (if d * 2 >? 9 then d * 2 - 9 else d * 2) else d.

(** The sum over digits listed from the rightmost one leftwards; [double]
    is the flag of the first digit listed. *)
Fixpoint luhnSumFromRight (double : bool) (ds : list Z) : Z :=
  match ds with
  | [] => 0
  | d :: r => luhnTerm double d + luhnSumFromRight (negb double) r
  end.

Definition digitsOf (s : string) : list Z :=
  map digitVal (list_ascii_of_string s).

Definition luhnSum (s : string) : Z :=
  luhnSumFromRight false (rev (digitsOf s)).

(** Replacing the byte at position [i]; positions past the end leave the
    string as it is. *)
Fixpoint setByte (i : nat) (d : ascii) (s : string) {struct s} : string :=
  match s with
  | EmptyString => EmptyString
  | String c t =>
      match i with
      | O => String d t
      | S j => String c (setByte j d t)
      end
  end.

(** The list-recursive form of the loop: the elements are visited in the
    order the loop visits them, last to first. *)
Fixpoint luhnRev (rs : list string) (even : bool) (sum : Z) : bool * error :=
  match rs with
  | [] => (GoInt.rem sum 10 =? 0, None)
  | x :: r =>
      let (digit, err) := Atoi x in
      match err with
      | Some e => (false, Some e)
      | None =>
          let sum' :=
            if even && (digit >? 4) then GoInt.add sum (GoInt.sub (GoInt.mul digit 2) 9)
            else if even then GoInt.add sum (GoInt.mul digit 2)
            else if negb even then GoInt.add sum digit
            else sum in
          luhnRev r (negb even) sum'
      end
  end.

Definition single (c : ascii) : string := String c EmptyString.

(** ** The prefix table as the specification words it *)

(** [card] starts with one of the strings of [ps]. *)
Definition hasPrefixIn (ps : list string) (card : string) : bool :=
  existsb (fun p => prefix p card) ps.

(** Every prefix the table lists apart from the bare [3]. *)
Definition listedPrefixes : list string :=
  ["4"; "2131"; "1800"; "6011"; "51"; "52"; "53"; "54"; "55";
   "34"; "37"; "36"; "300"; "301"; "302"; "303"; "304"; "305"].

(** The inputs on which some slice expression of [CardType] is evaluated
    past the end of the string. *)
Definition sliceOutOfRange (card : string) : bool :=
  let n := String.length card in
  (n <? 1)%nat
  || hasPrefixIn ["1"; "2"; "6"] card && (n <? 4)%nat
  || hasPrefixIn ["3"; "5"] card && (n <? 2)%nat
  || prefix "30" card && (n <? 3)%nat.

Definition panics {A} (r : result A) : bool :=
  match r with
  | Panic => true
  | Ok _ => false
  end.

(** What is left of [s] after its first [k] bytes. *)
Fixpoint dropBytes (k : nat) (s : string) : string :=
  match k, s with
  | S k', String _ t => dropBytes k' t
  | _, _ => s
  end.

(** ** strconv.FormatInt and strconv.Itoa, base 10 *)

(** [digits[d]] for [0 <= d < 10]. *)
Definition digitChar (d : Z) : ascii := ascii_of_N (Z.to_N (48 + d)).

(** The decimal digits of [u], most significant first, written in front of
    [tail]; the least significant digit is produced first, as [formatBits]
    fills its buffer from the end.  An unsigned 64-bit value has at most 20
    digits, which bounds the loop. *)
Fixpoint formatBits (fuel : nat) (u : Z) (tail : string) : string :=
  match fuel with
  | O => tail
  | S f =>
      if u <? 10 then String (digitChar u) tail
      else formatBits f (u / 10) (String (digitChar (u mod 10)) tail)
  end.

Definition FormatInt (i : Z) : string :=
  if i <? 0 then String "-" (formatBits 20 (- i) "") else formatBits 20 i "".

Definition Itoa (i : Z) : string := FormatInt i.

(** ** net/url: query escaping and [url.Values] *)

Module Url.

Definition isAlnum (c : ascii) : bool :=
  let b := byteZ c in
  between 97 122 b || between 65 90 b || between 48 57 b.

(** [shouldEscape(c, encodeQueryComponent)], with the unreserved set of
    RFC 3986: letters, digits and the marks [-], [_], [.], [~] stay, every
    other byte is escaped. *)
Definition shouldEscape (c : ascii) : bool :=
  negb (isAlnum c
        || Ascii.eqb c "-" || Ascii.eqb c "_" || Ascii.eqb c "." || Ascii.eqb c "~").

(** [upperhex[d]] *)
Definition upperhex (d : Z) : ascii :=
  match String.get (Z.to_nat d) "0123456789ABCDEF" with
  | Some x => x
  | None => zero
  end.

Definition escapeByte (c : ascii) : string :=
  if Ascii.eqb c " " then "+"
  else if shouldEscape c
       then String "%" (String (upperhex (byteZ c / 16)) (String (upperhex (byteZ c mod 16)) ""))
       else String c "".

Fixpoint QueryEscape (s : string) : string :=
  match s with
  | EmptyString => EmptyString
  | String c t => escapeByte c ++ QueryEscape t
  end.


(** [url.Values] is [map[string][]string]; the keys of the association
    list are kept distinct, and a missing key reads as the nil slice. *)
Definition Values := list (string * list string).

Fixpoint lookup (key : string) (v : Values) : list string :=
  match v with
  | [] => []
  | (k, xs) :: r => if String.eqb key k then xs else lookup key r
  end.

Definition store (key : string) (xs : list string) (v : Values) : Values :=
  (key, xs) :: filter (fun p => negb (String.eqb key (fst p))) v.

(** [v.Add(key, value)]: [v[key] = append(v[key], value)]. *)
Definition Add (key value : string) (v : Values) : Values :=
  store key (lookup key v ++ [value])%list v.

End Url.

(** ** The charge and invoice clients (charge.go)

    [query] sends the request and decodes the answer into the value its
    last argument points to; it is declared outside these files and is a
    parameter here: it is given the value behind the pointer and returns
    the updated value with the error.  So are [appendCardParamsToValues]
    and the types it and the decoded structures use. *)

Section Clients.

Variable Err : Type.
Variables Charge Invoice CardParams : Type.
Variable emptyCharge : Charge.
Variable emptyInvoice : Invoice.
Variable query :
  forall T : Type, string -> string -> option Url.Values -> T -> T * option Err.
Variable appendCardParamsToValues : CardParams -> Url.Values -> Url.Values.

Record ChargeParams := mkChargeParams {
  Amount : Z;
  Currency : string;
  Customer : string;
  Card : option CardParams;
  Token : string;
  Desc : string
}.

(** [params] stands for the structure behind the pointer the method is
    given; [Card] is the pointer field, [None] when nil. *)
Definition ChargeClient_Create (params : ChargeParams) : Charge * option Err :=
  let charge := emptyCharge in
  let values : Url.Values :=
    [("amount", [FormatInt (Amount params)]);
     ("currency", [Currency params]);
     ("description", [Desc params])] in
  let values :=
    match Card params with
    | Some card => appendCardParamsToValues card values
    | None =>
        if (0 <? String.length (Token params))%nat
        then Url.Add "card" (Token params) values
        else Url.Add "customer" (Customer params) values
    end in
  query Charge "POST" "/v1/charges" (Some values) charge.

Definition ChargeClient_Retrieve (id : string) : Charge * option Err :=
  let charge := emptyCharge in
  let path := "/v1/charges/" ++ Url.QueryEscape id in
  query Charge "GET" path None charge.



(** The response wrapper [struct{ Data []*Charge }] is its one field. *)
Definition ChargeClient_list (id : string) (count offset : Z)
  : list Charge * option Err :=
  let resp : list Charge := [] in
  let values : Url.Values :=
    [("count", [Itoa count]); ("offset", [Itoa offset])] in
  let values := if negb (String.eqb id "") then Url.Add "customer" id values else values in
  let (resp, err) := query (list Charge) "GET" "/v1/charges" (Some values) resp in
  match err with
  | Some e => ([], Some e)
  | None => (resp, None)
  end.

Definition ChargeClient_List := ChargeClient_list "" 10 0.
Definition ChargeClient_ListN (count offset : Z) := ChargeClient_list "" count offset.
Definition ChargeClient_CustomerList (id : string) := ChargeClient_list id 10 0.
Definition ChargeClient_CustomerListN (id : string) (count offset : Z) :=
  ChargeClient_list id count offset.


Definition InvoiceClient_RetrieveCustomer (cid : string) : Invoice * option Err :=
  let invoice := emptyInvoice in
  let values : Url.Values := [("customer", [cid])] in
  query Invoice "GET" "/v1/invoices/upcoming" (Some values) invoice.

Definition InvoiceClient_list (id : string) (count offset : Z)
  : list Invoice * option Err :=
  let resp : list Invoice := [] in
  let values : Url.Values :=
    [("count", [Itoa count]); ("offset", [Itoa offset])] in
  let values := if negb (String.eqb id "") then Url.Add "customer" id values else values in
  let (resp, err) := query (list Invoice) "GET" "/v1/invoices" (Some values) resp in
  match err with
  | Some e => ([], Some e)
  | None => (resp, None)
  end.

Definition InvoiceClient_List := InvoiceClient_list "" 10 0.
Definition InvoiceClient_ListN (count offset : Z) := InvoiceClient_list "" count offset.
Definition InvoiceClient_CustomerList (id : string) := InvoiceClient_list id 10 0.
Definition InvoiceClient_CustomerListN (id : string) (count offset : Z) :=
  InvoiceClient_list id count offset.

End Clients.

(** The first [k] bytes of [s] exist and are all at least 0x80, as the
    bytes after the first one of a multi-byte rune are. *)
Fixpoint highBytes (k : nat) (s : string) : Prop :=
  match k with
  | O => True
  | S k' =>
      match s with
      | EmptyString => False
      | String b t => 0x80 <= byteZ b /\ highBytes k' t
      end
  end.

(** * Machine integers *)

Section GoIntFacts.

Import GoInt.

Lemma wrap_id z : inRange z -> wrap z = z.
Proof.
  unfold inRange, wrap, minInt, maxInt. intros H.
  rewrite Z.mod_small; lia.
Qed.

Lemma wrap_inRange z : inRange (wrap z).
Proof.
  unfold inRange, wrap, minInt, maxInt.
  pose proof (Z.mod_pos_bound (z + 2 ^ 63) (2 ^ 64) ltac:(lia)). lia.
Qed.

Lemma inRange_small z : 0 <= z <= 18 -> inRange z.
Proof. unfold inRange, minInt, maxInt. lia. Qed.

End GoIntFacts.

(** * Digits *)

Lemma byteZ_bound c : 0 <= byteZ c < 256.
Proof.
  unfold byteZ. pose proof (N_ascii_bounded c). lia.
Qed.

Lemma byteZ_inj c d : byteZ c = byteZ d -> c = d.
Proof.
  unfold byteZ. intros H.
  rewrite <- (ascii_N_embedding c), <- (ascii_N_embedding d).
  f_equal. lia.
Qed.

Lemma isDigit_spec c : isDigit c = true <-> 48 <= byteZ c <= 57.
Proof. unfold isDigit, between. lia. Qed.

Lemma digitVal_range c : isDigit c = true -> 0 <= digitVal c <= 9.
Proof. rewrite isDigit_spec. unfold digitVal. lia. Qed.

Lemma digitVal_inj c d : digitVal c = digitVal d -> c = d.
Proof. unfold digitVal. intros H. apply byteZ_inj. lia. Qed.

Lemma isDigit_not_sign c :
  isDigit c = true -> Ascii.eqb c "+" = false /\ Ascii.eqb c "-" = false.
Proof.
  intros H. split; apply Ascii.eqb_neq; intros ->; discriminate H.
Qed.

(** * strconv.Atoi on one-rune strings *)

Lemma Atoi_digit c : isDigit c = true -> Atoi (single c) = (digitVal c, None).
Proof.
  intros H. destruct (isDigit_not_sign c H) as [Hp Hm].
  pose proof (digitVal_range c H) as Hr.
  unfold Atoi, single. rewrite Hp, Hm. cbn [orb negb andb parseDigits].
  rewrite H. cbn [parseDigits].
  replace (0 * 10 + digitVal c) with (digitVal c) by lia.
  destruct (digitVal c >=? 2 ^ 63) eqn:E; [lia | reflexivity].
Qed.

Lemma Atoi_sign_alone c :
  Ascii.eqb c "+" || Ascii.eqb c "-" = true -> snd (Atoi (single c)) <> None.
Proof.
  intros H. unfold Atoi, single. rewrite H. discriminate.
Qed.

Lemma Atoi_bad_head c r :
  isDigit c = false -> Ascii.eqb c "+" || Ascii.eqb c "-" = false ->
  snd (Atoi (String c r)) <> None.
Proof.
  intros H Hs. unfold Atoi. rewrite Hs. cbn [parseDigits]. rewrite H. discriminate.
Qed.

(** * strings.Split with the empty separator *)

Section Explode.

Import Strings.

Lemma first_ascii b : b < 0x80 -> Utf8.first b = (1%nat, (0, 0)).
Proof.
  intros H. unfold Utf8.first.
  destruct (b <? 0x80) eqn:E; [reflexivity | lia].
Qed.

(** A byte below 0x80 is a rune by itself. *)
Lemma runeSize_ascii c t : byteZ c < 0x80 -> Utf8.runeSize (String c t) = 1%nat.
Proof.
  intros H. unfold Utf8.runeSize. rewrite (first_ascii _ H). reflexivity.
Qed.

Lemma explode_ascii c t :
  byteZ c < 0x80 -> SplitChars (String c t) = single c :: SplitChars t.
Proof.
  intros H. unfold SplitChars. cbn [explodeFrom].
  rewrite (runeSize_ascii c t H). cbn. destruct t; reflexivity.
Qed.

(** Every element of the split starts with the byte at its position. *)
Lemma explode_head c t :
  exists r k, SplitChars (String c t) = String c r :: explodeFrom k t.
Proof.
  unfold SplitChars. cbn [explodeFrom].
  assert (Hs : exists m, Utf8.runeSize (String c t) = S m).
  { unfold Utf8.runeSize.
    destruct (Utf8.first (byteZ c)) as [sz [lo hi]].
    repeat match goal with
           | |- context [if ?b then _ else _] => destruct b
           | |- context [match ?s with EmptyString => _ | String _ _ => _ end] =>
               destruct s
           end; eauto. }
  destruct Hs as [m ->]. cbn [substring]. eauto.
Qed.

Lemma explode_digits s :
  allDigits s = true -> SplitChars s = map single (list_ascii_of_string s).
Proof.
  induction s as [|c t IH]; cbn [allDigits list_ascii_of_string map].
  - reflexivity.
  - intros H. apply andb_prop in H as [Hc Ht].
    rewrite explode_ascii by (apply isDigit_spec in Hc; lia).
    now rewrite IH.
Qed.

(** The split consists of one-digit strings exactly when every byte of
    the input is a digit. *)
Lemma explode_all_ok s :
  (forall x, In x (SplitChars s) -> snd (Atoi x) = None) -> allDigits s = true.
Proof.
  induction s as [|c t IH]; intros H; cbn [allDigits]; [reflexivity|].
  destruct (isDigit c) eqn:Hc.
  - rewrite explode_ascii in H by (apply isDigit_spec in Hc; lia).
    cbn [andb]. apply IH. intros x Hx. apply H. now right.
  - exfalso.
    destruct (Ascii.eqb c "+" || Ascii.eqb c "-") eqn:Hs.
    + assert (Ha : byteZ c < 0x80).
      { apply orb_prop in Hs as [E|E]; apply Ascii.eqb_eq in E; subst c;
          vm_compute; reflexivity. }
      rewrite (explode_ascii c t Ha) in H.
      apply (Atoi_sign_alone c Hs). apply H. now left.
    + destruct (explode_head c t) as (r & k & E). rewrite E in H.
      apply (Atoi_bad_head c r Hc Hs). apply H. now left.
Qed.

(** The three bytes E2 82 AC form one rune and stay together; a lone
    continuation byte is an element by itself. *)
Example SplitChars_euro :
  let euro := String (ascii_of_nat 226) (String (ascii_of_nat 130) (String (ascii_of_nat 172) "")) in
  SplitChars ("1" ++ euro ++ "2") = ["1"; euro; "2"]
  /\ SplitChars (String (ascii_of_nat 130) "7") = [String (ascii_of_nat 130) ""; "7"].
Proof. split; reflexivity. Qed.

End Explode.

(** * The loop, by index and by list *)

Lemma firstn_snoc_nth {A} (d : A) (l : list A) i :
  (i < List.length l)%nat -> firstn (S i) l = (firstn i l ++ [nth i l d])%list.
Proof.
  revert i. induction l as [|a l IH]; intros i Hi; cbn in Hi; [lia|].
  destruct i as [|i]; [reflexivity|].
  cbn [firstn nth app]. f_equal. rewrite <- IH by lia. reflexivity.
Qed.

Lemma luhnLoop_luhnRev digits n even sum :
  (n <= List.length digits)%nat ->
  luhnLoop digits n even sum = luhnRev (rev (firstn n digits)) even sum.
Proof.
  revert even sum. induction n as [|i IH]; intros even sum Hn.
  - reflexivity.
  - rewrite (firstn_snoc_nth "" digits i) by lia.
    rewrite rev_app_distr. cbn [rev app luhnLoop luhnRev].
    destruct (Atoi (nth i digits "")) as [digit [e|]]; [reflexivity|].
    apply IH. lia.
Qed.

Lemma LuhnValid_luhnRev card :
  LuhnValid card = luhnRev (rev (Strings.SplitChars card)) false 0.
Proof.
  unfold LuhnValid. rewrite luhnLoop_luhnRev by lia.
  now rewrite firstn_all.
Qed.

(** The loop returns an error exactly when one of the elements it is
    given does not convert, and then the boolean is [false]. *)
Lemma luhnRev_error rs :
  forall even sum,
    (snd (luhnRev rs even sum) <> None <-> exists x, In x rs /\ snd (Atoi x) <> None)
    /\ (snd (luhnRev rs even sum) <> None -> fst (luhnRev rs even sum) = false).
Proof.
  induction rs as [|x r IH]; intros even sum; cbn [luhnRev].
  - cbn. split; [split|]; [congruence | intros (x & [] & _) | congruence].
  - destruct (Atoi x) as [digit [e|]] eqn:E.
    + cbn. split; [split|]; [|discriminate | reflexivity].
      intros _. exists x. rewrite E. split; [now left | discriminate].
    + match goal with |- context [luhnRev r ?e ?s] => destruct (IH e s) as [[I1 I2] I3] end.
      split; [split|]; [| | exact I3].
      * intros H. destruct (I1 H) as (y & Hy & Hy'). exists y. split; [now right | exact Hy'].
      * intros (y & [->|Hy] & Hy'); [rewrite E in Hy'; now elim Hy'|].
        apply I2. eauto.
Qed.

(** * The running sum on digit strings *)

Lemma luhnTerm_range e d : 0 <= d <= 9 -> 0 <= luhnTerm e d <= 9.
Proof.
  intros H. unfold luhnTerm.
  destruct e; [destruct (d * 2 >? 9) eqn:E|]; lia.
Qed.

Lemma luhnTerm_inj e d d' :
  0 <= d <= 9 -> 0 <= d' <= 9 -> luhnTerm e d = luhnTerm e d' -> d = d'.
Proof.
  intros H H'. unfold luhnTerm.
  destruct e; [|auto].
  destruct (d * 2 >? 9) eqn:E, (d' * 2 >? 9) eqn:E'; lia.
Qed.

(** One iteration on a digit adds its term; no operation wraps. *)
Lemma luhn_step even sum d :
  0 <= d <= 9 -> 0 <= sum -> sum + 9 <= GoInt.maxInt ->
  (if even && (d >? 4) then GoInt.add sum (GoInt.sub (GoInt.mul d 2) 9)
   else if even then GoInt.add sum (GoInt.mul d 2)
   else if negb even then GoInt.add sum d
   else sum) = sum + luhnTerm even d.
Proof.
  intros Hd Hs Hm. unfold GoInt.add, GoInt.sub, GoInt.mul, luhnTerm.
  unfold GoInt.maxInt in Hm.
  assert (W : forall z, - 9 <= z <= 2 ^ 63 - 1 -> GoInt.wrap z = z).
  { intros z Hz. apply wrap_id. unfold GoInt.inRange, GoInt.minInt, GoInt.maxInt. lia. }
  destruct even; cbn [andb negb].
  - rewrite (W (d * 2)), (W (d * 2 - 9)) by lia.
    destruct (d >? 4) eqn:E, (d * 2 >? 9) eqn:E'; try lia; apply W; lia.
  - apply W. lia.
Qed.

Lemma luhnSumFromRight_nonneg ds :
  Forall (fun d => 0 <= d <= 9) ds ->
  forall e, 0 <= luhnSumFromRight e ds <= 9 * Z.of_nat (List.length ds).
Proof.
  induction 1 as [|d r Hd _ IH]; intros e; cbn [luhnSumFromRight List.length].
  - lia.
  - pose proof (luhnTerm_range e d Hd). specialize (IH (negb e)). lia.
Qed.

Lemma luhnRev_digits cs :
  Forall (fun c => isDigit c = true) cs ->
  forall even sum,
    0 <= sum -> sum + 9 * Z.of_nat (List.length cs) <= GoInt.maxInt ->
    luhnRev (map single cs) even sum
    = (GoInt.rem (sum + luhnSumFromRight even (map digitVal cs)) 10 =? 0, None).
Proof.
  induction 1 as [|c r Hc _ IH]; intros even sum Hs Hm;
    cbn [map luhnRev luhnSumFromRight List.length] in *.
  - now rewrite Z.add_0_r.
  - rewrite (Atoi_digit c Hc).
    pose proof (digitVal_range c Hc) as Hd.
    pose proof (luhnTerm_range even (digitVal c) Hd) as Ht.
    rewrite luhn_step by lia.
    rewrite IH by lia. now rewrite Z.add_assoc.
Qed.

Lemma allDigits_Forall s :
  allDigits s = true <-> Forall (fun c => isDigit c = true) (list_ascii_of_string s).
Proof.
  induction s as [|c t IH]; cbn [allDigits list_ascii_of_string].
  - split; auto.
  - rewrite andb_true_iff, IH. split.
    + intros [? ?]; now constructor.
    + now inversion 1.
Qed.

Lemma allDigits_false s :
  allDigits s = false <->
  exists c, In c (list_ascii_of_string s) /\ isDigit c = false.
Proof.
  induction s as [|c t IH]; cbn [allDigits list_ascii_of_string In].
  - split; [discriminate | intros (c & [] & _)].
  - rewrite andb_false_iff, IH. split.
    + intros [H | (x & Hx & Hx')]; eauto.
    + intros (x & [-> | Hx] & Hx'); eauto.
Qed.

Lemma length_list_ascii s : List.length (list_ascii_of_string s) = String.length s.
Proof. induction s; cbn; congruence. Qed.

(** On a digit string of a length whose sum fits [int], [LuhnValid]
    computes the sum of the specification. *)
Lemma LuhnValid_digits card :
  allDigits card = true ->
  9 * Z.of_nat (String.length card) <= GoInt.maxInt ->
  LuhnValid card = (Z.rem (luhnSum card) 10 =? 0, None).
Proof.
  intros Hd Hlen. rewrite LuhnValid_luhnRev, (explode_digits card Hd).
  rewrite <- map_rev.
  apply allDigits_Forall in Hd.
  rewrite luhnRev_digits.
  - unfold luhnSum, digitsOf, GoInt.rem. now rewrite map_rev.
  - now apply Forall_rev.
  - lia.
  - rewrite length_rev, length_list_ascii. lia.
Qed.

(** * LuhnValid: the checksum *)

(** C1. On every string of decimal digits whose running sum fits Go's
    [int] (nine times the length is at most [maxInt], which holds of any
    string that fits in memory), [LuhnValid] returns a nil error and the
    boolean [true] exactly when the Luhn sum is divisible by 10.  The sum
    [luhnSum] runs from the rightmost digit to the leftmost with a doubling
    flag that starts at [false] and alternates; a flagged digit contributes
    [d * 2] when that is at most 9 and [d * 2 - 9] otherwise, an unflagged
    digit contributes itself. *)
Theorem LuhnValid_iff_luhnSum_divisible card :
  allDigits card = true ->
  9 * Z.of_nat (String.length card) <= GoInt.maxInt ->
  snd (LuhnValid card) = None
  /\ (fst (LuhnValid card) = true <-> (10 | luhnSum card)).
Proof.
  intros Hd Hlen. rewrite (LuhnValid_digits card Hd Hlen). cbn [fst snd].
  split; [reflexivity|].
  rewrite Z.eqb_eq. apply Z.rem_divide. discriminate.
Qed.

Lemma LuhnValid_iff_luhnSum_divisible_witness :
  allDigits "79927398713" = true
  /\ 9 * Z.of_nat (String.length "79927398713") <= GoInt.maxInt
  /\ snd (LuhnValid "79927398713") = None
  /\ (fst (LuhnValid "79927398713") = true <-> (10 | luhnSum "79927398713")).
Proof.
  split; [reflexivity|]. split; [vm_compute; discriminate|].
  apply (LuhnValid_iff_luhnSum_divisible "79927398713");
    [reflexivity | vm_compute; discriminate].
Defined.

Example luhnSum_79927398713 : luhnSum "79927398713" = 70.
Proof. reflexivity. Qed.

Example LuhnValid_12a4 :
  LuhnValid "12a4" = (false, Some (syntaxError "Atoi" "a")).
Proof. reflexivity. Qed.

Example LuhnValid_signs :
  LuhnValid "-1" = (false, Some (syntaxError "Atoi" "-"))
  /\ LuhnValid "4+2" = (false, Some (syntaxError "Atoi" "+")).
Proof. split; reflexivity. Qed.

(** C5. [LuhnValid] returns a non-nil error exactly when some byte of the
    input is not a decimal digit, and whenever the error is non-nil the
    boolean is [false]: a character that is not a digit always stops the
    function with the conversion error and is never summed as a zero. *)
Theorem LuhnValid_error_iff_nondigit card :
  (snd (LuhnValid card) <> None <->
   exists c, In c (list_ascii_of_string card) /\ isDigit c = false)
  /\ (snd (LuhnValid card) <> None -> fst (LuhnValid card) = false).
Proof.
  rewrite LuhnValid_luhnRev.
  destruct (luhnRev_error (rev (Strings.SplitChars card)) false 0) as [[I1 I2] I3].
  split; [split|exact I3].
  - intros H. apply allDigits_false.
    destruct (allDigits card) eqn:Hd; [exfalso|reflexivity].
    destruct (I1 H) as (x & Hx & Hx'). apply in_rev in Hx.
    rewrite (explode_digits card Hd) in Hx.
    apply in_map_iff in Hx as (c & <- & Hc).
    apply allDigits_Forall in Hd. rewrite Forall_forall in Hd.
    rewrite (Atoi_digit c (Hd c Hc)) in Hx'. now apply Hx'.
  - intros Hex. apply allDigits_false in Hex.
    destruct (snd (luhnRev (rev (Strings.SplitChars card)) false 0)) eqn:E;
      [discriminate|exfalso].
    assert (Hall : forall x, In x (Strings.SplitChars card) -> snd (Atoi x) = None).
    { intros x Hx. destruct (snd (Atoi x)) eqn:Ex; [exfalso|reflexivity].
      assert (Hne : @None NumError <> None); [|now apply Hne].
      apply I2. exists x. rewrite <- in_rev, Ex. split; [assumption|discriminate]. }
    rewrite (explode_all_ok card Hall) in Hex. discriminate.
Qed.

(** C7 as stated fails: on the empty string the boolean is not [false]. *)
Lemma LuhnValid_empty_not_invalid : fst (LuhnValid "") <> false.
Proof. vm_compute. discriminate. Qed.

(** C7, amended. On the empty string the loop body never runs, the sum
    stays 0, and [LuhnValid] returns [true] with a nil error. *)
Theorem LuhnValid_empty : LuhnValid "" = (true, None).
Proof. reflexivity. Qed.

(** C8. On a one-character string holding the decimal digit [c],
    [LuhnValid] returns a nil error and [true] exactly when the digit is 0:
    the lone digit is not doubled. *)
Theorem LuhnValid_one_digit c :
  isDigit c = true ->
  snd (LuhnValid (String c "")) = None
  /\ (fst (LuhnValid (String c "")) = true <-> digitVal c = 0).
Proof.
  intros Hc.
  assert (Hd : allDigits (String c "") = true) by (cbn; now rewrite Hc).
  rewrite (LuhnValid_digits _ Hd) by (vm_compute; discriminate).
  cbn [fst snd]. split; [reflexivity|].
  unfold luhnSum, digitsOf. cbn [list_ascii_of_string map rev app luhnSumFromRight luhnTerm].
  pose proof (digitVal_range c Hc) as Hr.
  rewrite Z.add_0_r, Z.rem_small by lia. apply Z.eqb_eq.
Qed.

Lemma LuhnValid_one_digit_witness :
  isDigit "7" = true
  /\ snd (LuhnValid "7") = None
  /\ (fst (LuhnValid "7") = true <-> digitVal "7" = 0).
Proof.
  split; [reflexivity|]. apply (LuhnValid_one_digit "7"). reflexivity.
Defined.

(** * LuhnValid: relations between inputs *)

Lemma luhnRev_snoc_zero rs :
  forall even sum,
    GoInt.inRange sum ->
    luhnRev (rs ++ ["0"]) even sum = luhnRev rs even sum.
Proof.
  induction rs as [|x r IH]; intros even sum Hs.
  - cbn [app luhnRev]. change (Atoi "0") with (0, @None NumError).
    cbn match. unfold GoInt.add, GoInt.mul.
    change (GoInt.wrap (0 * 2)) with 0. rewrite Z.add_0_r, (wrap_id sum Hs).
    destruct even; reflexivity.
  - cbn [app luhnRev]. destruct (Atoi x) as [digit [e|]]; [reflexivity|].
    apply IH.
    destruct even; cbn [andb negb]; [destruct (digit >? 4)|];
      apply wrap_inRange.
Qed.

(** A leading ['0'] does not change the result, whatever follows it. *)
Lemma LuhnValid_zero_prefix s : LuhnValid (String "0" s) = LuhnValid s.
Proof.
  rewrite !LuhnValid_luhnRev.
  rewrite explode_ascii by (vm_compute; reflexivity).
  cbn [rev]. apply luhnRev_snoc_zero.
  unfold GoInt.inRange, GoInt.minInt, GoInt.maxInt. lia.
Qed.

(** C10. Prepending the character ['0'] to a string of decimal digits
    leaves the result of [LuhnValid] unchanged. *)
Theorem LuhnValid_prepend_zero s :
  allDigits s = true -> LuhnValid ("0" ++ s) = LuhnValid s.
Proof.
  intros _. apply LuhnValid_zero_prefix.
Qed.

Lemma LuhnValid_prepend_zero_witness :
  allDigits "4242424242424241" = true
  /\ LuhnValid ("0" ++ "4242424242424241") = LuhnValid "4242424242424241".
Proof.
  split; [reflexivity|]. apply (LuhnValid_prepend_zero "4242424242424241"). reflexivity.
Defined.

(** The sum of a list with one element singled out. *)
Lemma luhnSumFromRight_split a :
  forall e, exists e',
    forall x b,
      luhnSumFromRight e (a ++ x :: b)
      = luhnSumFromRight e a + luhnTerm e' x + luhnSumFromRight (negb e') b.
Proof.
  induction a as [|y a IH]; intros e.
  - exists e. intros x b. cbn. lia.
  - destruct (IH (negb e)) as [e' He']. exists e'. intros x b.
    cbn [app luhnSumFromRight]. rewrite He'. lia.
Qed.

Lemma setByte_split i d s c :
  get i s = Some c ->
  exists l1 l2,
    list_ascii_of_string s = (l1 ++ c :: l2)%list
    /\ list_ascii_of_string (setByte i d s) = (l1 ++ d :: l2)%list.
Proof.
  revert i. induction s as [|a t IH]; intros i H; cbn [get] in H; [discriminate|].
  destruct i as [|j]; cbn [setByte list_ascii_of_string].
  - injection H as ->. exists [], (list_ascii_of_string t). now split.
  - destruct (IH j H) as (l1 & l2 & E1 & E2).
    exists (a :: l1), l2. cbn [app]. now rewrite E1, E2.
Qed.

Lemma setByte_length i d s : String.length (setByte i d s) = String.length s.
Proof.
  revert i. induction s as [|a t IH]; intros [|j]; cbn; auto.
Qed.

Lemma setByte_allDigits i d s :
  allDigits s = true -> isDigit d = true -> allDigits (setByte i d s) = true.
Proof.
  revert i. induction s as [|a t IH]; intros i Hs Hd; [reflexivity|].
  cbn [allDigits] in Hs. apply andb_prop in Hs as [Ha Ht].
  destruct i as [|j]; cbn [setByte allDigits]; apply andb_true_intro; auto.
Qed.

(** Replacing one digit by another moves the sum by a nonzero amount of
    absolute value at most 9. *)
Lemma luhnSum_setByte i c d s :
  allDigits s = true -> get i s = Some c -> isDigit d = true -> d <> c ->
  exists k, luhnSum (setByte i d s) = luhnSum s + k /\ k <> 0 /\ - 9 <= k <= 9.
Proof.
  intros Hs Hg Hd Hne.
  destruct (setByte_split i d s c Hg) as (l1 & l2 & E1 & E2).
  assert (Hc : isDigit c = true).
  { apply allDigits_Forall in Hs. rewrite Forall_forall in Hs.
    apply Hs. rewrite E1. apply in_elt. }
  unfold luhnSum, digitsOf. rewrite E1, E2, !map_app, !rev_app_distr.
  cbn [map rev]. rewrite <- !app_assoc. cbn [app].
  destruct (luhnSumFromRight_split (rev (map digitVal l2)) false) as [e' He'].
  rewrite !He'.
  pose proof (digitVal_range c Hc) as Rc. pose proof (digitVal_range d Hd) as Rd.
  pose proof (luhnTerm_range e' _ Rc). pose proof (luhnTerm_range e' _ Rd).
  exists (luhnTerm e' (digitVal d) - luhnTerm e' (digitVal c)).
  split; [lia|]. split; [|lia].
  intros Hz. apply Hne. apply digitVal_inj.
  apply (luhnTerm_inj e'); auto. lia.
Qed.

(** C6. Let a string of decimal digits (whose running sum fits [int]) pass
    [LuhnValid].  Replacing the digit at any position by any different
    decimal digit yields a string on which [LuhnValid] returns [false]
    (with a nil error). *)
Theorem LuhnValid_detects_single_digit_change card i c d :
  allDigits card = true ->
  9 * Z.of_nat (String.length card) <= GoInt.maxInt ->
  LuhnValid card = (true, None) ->
  get i card = Some c ->
  isDigit d = true ->
  d <> c ->
  LuhnValid (setByte i d card) = (false, None).
Proof.
  intros Hs Hlen Hv Hg Hd Hne.
  rewrite (LuhnValid_digits card Hs Hlen) in Hv.
  rewrite LuhnValid_digits
    by (rewrite ?setByte_length; auto using setByte_allDigits).
  destruct (luhnSum_setByte i c d card Hs Hg Hd Hne) as (k & -> & Hk & Hr).
  f_equal. apply Z.eqb_neq.
  assert (H0 : Z.rem (luhnSum card) 10 = 0) by (apply Z.eqb_eq; congruence).
  apply Z.rem_divide in H0 as [q Hq]; [|discriminate].
  intros H1. apply Z.rem_divide in H1 as [q' Hq']; [|discriminate].
  lia.
Qed.

Lemma LuhnValid_detects_single_digit_change_witness :
  allDigits "4242424242424242" = true
  /\ 9 * Z.of_nat (String.length "4242424242424242") <= GoInt.maxInt
  /\ LuhnValid "4242424242424242" = (true, None)
  /\ get 15 "4242424242424242" = Some "2"%char
  /\ isDigit "1" = true
  /\ "1"%char <> "2"%char
  /\ LuhnValid (setByte 15 "1" "4242424242424242") = (false, None).
Proof.
  repeat (split; [first [reflexivity | discriminate | vm_compute; discriminate]|]).
  apply (LuhnValid_detects_single_digit_change "4242424242424242" 15 "2" "1");
    first [reflexivity | discriminate | vm_compute; discriminate].
Defined.

(** * CardType *)

Lemma at_least_four (card : string) :
  (4 <= String.length card)%nat ->
  exists a b c d r, card = String a (String b (String c (String d r))).
Proof.
  destruct card as [|a [|b [|c [|d r]]]]; cbn; try lia; eauto 6.
Qed.

Lemma substring_0_0 s : substring 0 0 s = "".
Proof. destruct s; reflexivity. Qed.

Lemma prefix_nil s : prefix "" s = true.
Proof. destruct s; reflexivity. Qed.

(** Unfolds [CardType] on a string whose first four bytes are named and
    decides every comparison of bytes that occurs. *)
Ltac card_unfold :=
  unfold CardType, slice, hasPrefixIn, listedPrefixes in *;
  cbn [String.length Nat.leb andb Nat.sub substring bind oneOf existsb
       String.eqb orb prefix] in *;
  rewrite ?substring_0_0 in *.

Ltac card_cases :=
  repeat (cbn [orb andb String.eqb prefix] in *; try discriminate;
          match goal with
          | H : context [ascii_dec ?x ?y] |- _ =>
              destruct (ascii_dec x y); try discriminate; subst
          | |- context [Ascii.eqb ?x ?y] =>
              destruct (Ascii.eqb_spec x y); try congruence; subst
          end);
  rewrite ?prefix_nil in *; cbn [orb andb] in *;
  try reflexivity; try congruence.

Ltac card_solve := card_unfold; card_cases.

Section FourBytes.

Variables (a b c d : ascii) (r : string).
Let card := String a (String b (String c (String d r))).

Lemma CardType_Visa :
  hasPrefixIn ["4"] card = true -> CardType card = Ok Visa.
Proof. subst card. intros H. card_solve. Qed.

Lemma CardType_JCB4 :
  hasPrefixIn ["2131"; "1800"] card = true -> CardType card = Ok JCB.
Proof. subst card. intros H. card_solve. Qed.

Lemma CardType_Discover :
  hasPrefixIn ["6011"] card = true -> CardType card = Ok Discover.
Proof. subst card. intros H. card_solve. Qed.

Lemma CardType_MasterCard :
  hasPrefixIn ["51"; "52"; "53"; "54"; "55"] card = true ->
  CardType card = Ok MasterCard.
Proof. subst card. intros H. card_solve. Qed.

Lemma CardType_AmericanExpress :
  hasPrefixIn ["34"; "37"] card = true -> CardType card = Ok AmericanExpress.
Proof. subst card. intros H. card_solve. Qed.

Lemma CardType_DinersClub :
  hasPrefixIn ["36"; "300"; "301"; "302"; "303"; "304"; "305"] card = true ->
  CardType card = Ok DinersClub.
Proof. subst card. intros H. card_solve. Qed.

Lemma CardType_Unknown_first :
  hasPrefixIn ["1"; "2"; "3"; "4"; "5"; "6"] card = false ->
  CardType card = Ok UnknownCard.
Proof. subst card. intros H. card_solve. Qed.

Lemma CardType_Unknown_unlisted :
  hasPrefixIn ["1"; "2"; "4"; "5"; "6"] card = true ->
  hasPrefixIn listedPrefixes card = false ->
  CardType card = Ok UnknownCard.
Proof. subst card. intros H H'. card_solve. Qed.

Lemma CardType_three_JCB :
  prefix "3" card = true ->
  hasPrefixIn ["30"; "34"; "36"; "37"] card = false ->
  CardType card = Ok JCB.
Proof. subst card. intros H H'. card_solve. Qed.

Lemma CardType_three_zero_Unknown :
  prefix "30" card = true ->
  hasPrefixIn ["300"; "301"; "302"; "303"; "304"; "305"] card = false ->
  CardType card = Ok UnknownCard.
Proof. subst card. intros H H'. card_solve. Qed.

End FourBytes.

(** X1. On four bytes or more no slice is out of bounds: [CardType]
    returns, and what it returns is one of the seven card type constants. *)
Lemma CardType_returns_from_four card :
  (4 <= String.length card)%nat ->
  exists brand,
    CardType card = Ok brand
    /\ In brand [AmericanExpress; DinersClub; Discover; JCB; MasterCard; Visa; UnknownCard].
Proof.
  intros H. destruct (at_least_four card H) as (a & b & c & d & r & ->).
  card_unfold.
  repeat (cbn [orb andb String.eqb] in *;
          match goal with
          | |- context [Ascii.eqb ?x ?y] =>
              destruct (Ascii.eqb_spec x y); try congruence; subst
          end);
  cbn [orb andb];
  eexists; (split; [reflexivity | cbn; tauto]).
Qed.

(** X2. [CardType] panics exactly on the inputs too short for a slice it
    takes: the empty string, fewer than four bytes after a leading [1], [2]
    or [6], a lone [3] or [5], and the two bytes [30]. *)
Lemma CardType_panics_iff card :
  panics (CardType card) = sliceOutOfRange card.
Proof.
  unfold sliceOutOfRange.
  destruct card as [|a [|b [|c [|d r]]]]; [reflexivity| | | |];
    card_unfold; cbn [Nat.ltb Nat.leb];
    repeat (cbn [orb andb String.eqb bind panics] in *;
            match goal with
            | |- context [ascii_dec ?x ?y] =>
                destruct (ascii_dec x y); try congruence; subst
            | |- context [Ascii.eqb ?x ?y] =>
                destruct (Ascii.eqb_spec x y); try congruence; subst
            end);
    rewrite ?prefix_nil; reflexivity.
Qed.

(** C2. The claim does not hold of the code: on the one-byte input ["3"]
    the slice [card[0:2]] is out of range and [CardType] panics instead of
    returning JCB, and on the empty input the first slice [card[0:1]]
    already panics. *)
Theorem CardType_short_input_panics :
  CardType "3" = Panic /\ CardType "" = Panic.
Proof. split; reflexivity. Qed.

(** C3. On every string of at least four bytes [CardType] returns: Visa
    on a leading [4]; JCB on a leading [2131] or [1800]; Discover on
    [6011]; MasterCard on [51] to [55]; American Express on [34] or [37];
    Diners Club on [36] or [300] to [305]; and Unknown when the first byte
    is none of [1] to [6], or when it is one of [1], [2], [4], [5], [6] and
    none of the listed prefixes matches. *)
Theorem CardType_prefix_table card :
  (4 <= String.length card)%nat ->
  (hasPrefixIn ["4"] card = true -> CardType card = Ok Visa)
  /\ (hasPrefixIn ["2131"; "1800"] card = true -> CardType card = Ok JCB)
  /\ (hasPrefixIn ["6011"] card = true -> CardType card = Ok Discover)
  /\ (hasPrefixIn ["51"; "52"; "53"; "54"; "55"] card = true ->
      CardType card = Ok MasterCard)
  /\ (hasPrefixIn ["34"; "37"] card = true -> CardType card = Ok AmericanExpress)
  /\ (hasPrefixIn ["36"; "300"; "301"; "302"; "303"; "304"; "305"] card = true ->
      CardType card = Ok DinersClub)
  /\ (hasPrefixIn ["1"; "2"; "3"; "4"; "5"; "6"] card = false ->
      CardType card = Ok UnknownCard)
  /\ (hasPrefixIn ["1"; "2"; "4"; "5"; "6"] card = true ->
      hasPrefixIn listedPrefixes card = false ->
      CardType card = Ok UnknownCard).
Proof.
  intros H. destruct (at_least_four card H) as (a & b & c & d & r & ->).
  repeat split.
  - apply CardType_Visa.
  - apply CardType_JCB4.
  - apply CardType_Discover.
  - apply CardType_MasterCard.
  - apply CardType_AmericanExpress.
  - apply CardType_DinersClub.
  - apply CardType_Unknown_first.
  - apply CardType_Unknown_unlisted.
Qed.

Lemma CardType_prefix_table_witness :
  (4 <= String.length "5105105105105100")%nat
  /\ CardType "5105105105105100" = Ok MasterCard.
Proof.
  split; [cbn; lia|].
  apply (CardType_prefix_table "5105105105105100"); [cbn; lia | reflexivity].
Defined.

(** C4 as stated fails at ["3060"]: four bytes, a leading [3], none of
    [34], [37], [36], [300] to [305] matches, and the result is not JCB. *)
Lemma CardType_three_fallback_fails :
  ~ ((4 <= String.length "3060")%nat ->
     prefix "3" "3060" = true ->
     hasPrefixIn ["34"; "37"; "36"; "300"; "301"; "302"; "303"; "304"; "305"] "3060" = false ->
     CardType "3060" = Ok JCB).
Proof.
  intros H. specialize (H ltac:(cbn; lia) eq_refl eq_refl). discriminate H.
Qed.

(** C4, amended. On every string of at least four bytes that starts with
    [3]: when the first two bytes are none of [30], [34], [36], [37] the
    result is JCB; when they are [30] and the first three are none of [300]
    to [305] the result is Unknown. *)
Theorem CardType_three_fallback card :
  (4 <= String.length card)%nat ->
  prefix "3" card = true ->
  (hasPrefixIn ["30"; "34"; "36"; "37"] card = false -> CardType card = Ok JCB)
  /\ (prefix "30" card = true ->
      hasPrefixIn ["300"; "301"; "302"; "303"; "304"; "305"] card = false ->
      CardType card = Ok UnknownCard).
Proof.
  intros H H3. destruct (at_least_four card H) as (a & b & c & d & r & ->).
  split.
  - now apply CardType_three_JCB.
  - apply CardType_three_zero_Unknown.
Qed.

Lemma CardType_three_fallback_witness :
  (4 <= String.length "3530111333300000")%nat
  /\ prefix "3" "3530111333300000" = true
  /\ CardType "3530111333300000" = Ok JCB.
Proof.
  split; [cbn; lia|]. split; [reflexivity|].
  apply (CardType_three_fallback "3530111333300000");
    [cbn; lia | reflexivity | reflexivity].
Defined.

(** C9. The test vectors: [4242424242424242] passes the checksum and
    [4242424242424241] does not, both with a nil error; [6011000000000004]
    is Discover, [341111111111111] is American Express and
    [0000000000000000] is Unknown. *)
Theorem test_vectors :
  LuhnValid "4242424242424242" = (true, None)
  /\ LuhnValid "4242424242424241" = (false, None)
  /\ CardType "6011000000000004" = Ok Discover
  /\ CardType "341111111111111" = Ok AmericanExpress
  /\ CardType "0000000000000000" = Ok UnknownCard.
Proof. repeat split. Qed.


(** * Further properties of CardType *)

Lemma CardType_returns_from_four_witness :
  (4 <= String.length "6011000000000004")%nat
  /\ exists brand,
      CardType "6011000000000004" = Ok brand
      /\ In brand [AmericanExpress; DinersClub; Discover; JCB; MasterCard; Visa; UnknownCard].
Proof.
  split; [cbn; lia|].
  apply (CardType_returns_from_four "6011000000000004"). cbn; lia.
Defined.

(** X3. The result depends on the first four bytes only: a string of at
    least four bytes is classified as its four-byte prefix is. *)
Theorem CardType_first_four card :
  (4 <= String.length card)%nat ->
  CardType card = CardType (substring 0 4 card).
Proof.
  intros H. destruct (at_least_four card H) as (a & b & c & d & r & ->).
  cbn [substring]. rewrite substring_0_0.
  card_unfold.
  repeat (cbn [orb andb String.eqb] in *;
          match goal with
          | |- context [Ascii.eqb ?x ?y] =>
              destruct (Ascii.eqb_spec x y); try congruence; subst
          end);
  reflexivity.
Qed.

Lemma CardType_first_four_witness :
  (4 <= String.length "341111111111111")%nat
  /\ CardType "341111111111111" = CardType (substring 0 4 "341111111111111").
Proof.
  split; [cbn; lia|]. apply (CardType_first_four "341111111111111"). cbn; lia.
Defined.

(** X4. Each label is returned on its prefixes only: Visa exactly on a
    leading [4], Discover on [6011], MasterCard on [51] to [55], American
    Express on [34] and [37], Diners Club on [36] and [300] to [305], and JCB
    on [2131], [1800] and on two bytes or more that start with [3] but with
    none of [30], [34], [36], [37].  This holds of every input, the short
    ones included. *)
Theorem CardType_label_iff card :
  (CardType card = Ok Visa <-> prefix "4" card = true)
  /\ (CardType card = Ok Discover <-> prefix "6011" card = true)
  /\ (CardType card = Ok MasterCard <->
      hasPrefixIn ["51"; "52"; "53"; "54"; "55"] card = true)
  /\ (CardType card = Ok AmericanExpress <-> hasPrefixIn ["34"; "37"] card = true)
  /\ (CardType card = Ok DinersClub <->
      hasPrefixIn ["36"; "300"; "301"; "302"; "303"; "304"; "305"] card = true)
  /\ (CardType card = Ok JCB <->
      hasPrefixIn ["2131"; "1800"] card
      || prefix "3" card && (2 <=? String.length card)%nat
         && negb (hasPrefixIn ["30"; "34"; "36"; "37"] card) = true).
Proof.
  unfold Visa, Discover, MasterCard, AmericanExpress, DinersClub, JCB, UnknownCard.
  destruct card as [|a [|b [|c [|d r]]]];
    card_unfold; cbn [Nat.leb];
    repeat (cbn [orb andb negb String.eqb bind] in *;
            match goal with
            | |- context [ascii_dec ?x ?y] =>
                destruct (ascii_dec x y); try congruence; subst
            | |- context [Ascii.eqb ?x ?y] =>
                destruct (Ascii.eqb_spec x y); try congruence; subst
            end);
    rewrite ?prefix_nil; cbn [orb andb negb];
    repeat split; intros; first [reflexivity | discriminate | congruence].
Qed.

(** * Further properties of LuhnValid *)

Lemma list_ascii_app s t :
  list_ascii_of_string (s ++ t) = (list_ascii_of_string s ++ list_ascii_of_string t)%list.
Proof. induction s as [|c s IH]; cbn; [reflexivity | now rewrite IH]. Qed.

Lemma allDigits_app s t : allDigits (s ++ t) = allDigits s && allDigits t.
Proof.
  induction s as [|c s IH]; cbn; [reflexivity|].
  now rewrite IH, andb_assoc.
Qed.

Lemma length_app_string s t :
  String.length (s ++ t) = (String.length s + String.length t)%nat.
Proof. induction s as [|c s IH]; cbn; [reflexivity | now rewrite IH]. Qed.

Lemma digitsOf_app s t : digitsOf (s ++ t) = (digitsOf s ++ digitsOf t)%list.
Proof. unfold digitsOf. now rewrite list_ascii_app, map_app. Qed.

Lemma digitsOf_range s :
  allDigits s = true -> Forall (fun d => 0 <= d <= 9) (digitsOf s).
Proof.
  intros H. apply allDigits_Forall in H. unfold digitsOf.
  induction H as [|c l Hc _ IH]; cbn [map]; constructor; auto using digitVal_range.
Qed.

(** The byte of the decimal digit [v]. *)
Lemma digit_of_value v :
  0 <= v <= 9 -> exists c, isDigit c = true /\ digitVal c = v.
Proof.
  intros Hv. exists (ascii_of_N (Z.to_N (48 + v))).
  assert (E : byteZ (ascii_of_N (Z.to_N (48 + v))) = 48 + v).
  { unfold byteZ. rewrite N_ascii_embedding by lia. lia. }
  split; [apply isDigit_spec | unfold digitVal]; lia.
Qed.

(** X5. Check digit.  To every string of decimal digits (whose running sum
    fits [int]) exactly one decimal digit can be appended so that
    [LuhnValid] accepts the result. *)
Theorem LuhnValid_check_digit_unique s :
  allDigits s = true ->
  9 * Z.of_nat (S (String.length s)) <= GoInt.maxInt ->
  exists d,
    isDigit d = true
    /\ LuhnValid (s ++ String d "") = (true, None)
    /\ forall d', isDigit d' = true ->
                  LuhnValid (s ++ String d' "") = (true, None) -> d' = d.
Proof.
  intros Hs Hlen.
  set (base := luhnSumFromRight true (rev (digitsOf s))).
  assert (Hsum : forall c, luhnSum (s ++ String c "") = digitVal c + base).
  { intros c. unfold luhnSum. rewrite digitsOf_app, rev_app_distr. reflexivity. }
  assert (Hv : forall c, isDigit c = true ->
                         LuhnValid (s ++ String c "")
                         = (Z.rem (digitVal c + base) 10 =? 0, None)).
  { intros c Hc. rewrite LuhnValid_digits, Hsum; [reflexivity| |].
    - rewrite allDigits_app, Hs. cbn. now rewrite Hc.
    - rewrite length_app_string. cbn [String.length].
      replace (String.length s + 1)%nat with (S (String.length s)) by lia. exact Hlen. }
  assert (Hb : 0 <= base).
  { apply luhnSumFromRight_nonneg, Forall_rev, digitsOf_range, Hs. }
  destruct (digit_of_value ((10 - base mod 10) mod 10)) as (d & Hd & Ed).
  { pose proof (Z.mod_pos_bound (10 - base mod 10) 10). lia. }
  exists d. split; [exact Hd|]. split.
  - rewrite (Hv d Hd). f_equal. apply Z.eqb_eq.
    pose proof (digitVal_range d Hd).
    rewrite Z.rem_mod_nonneg by lia. rewrite Ed.
    Z.to_euclidean_division_equations. lia.
  - intros d' Hd' Hok. rewrite (Hv d' Hd') in Hok.
    assert (E0 : Z.rem (digitVal d' + base) 10 = 0) by (apply Z.eqb_eq; congruence).
    pose proof (digitVal_range d' Hd').
    rewrite Z.rem_mod_nonneg in E0 by lia.
    apply digitVal_inj. rewrite Ed.
    Z.to_euclidean_division_equations. lia.
Qed.

Lemma LuhnValid_check_digit_unique_witness :
  allDigits "7992739871" = true
  /\ 9 * Z.of_nat (S (String.length "7992739871")) <= GoInt.maxInt
  /\ exists d,
      isDigit d = true
      /\ LuhnValid ("7992739871" ++ String d "") = (true, None)
      /\ forall d', isDigit d' = true ->
                    LuhnValid ("7992739871" ++ String d' "") = (true, None) -> d' = d.
Proof.
  split; [reflexivity|]. split; [vm_compute; discriminate|].
  apply (LuhnValid_check_digit_unique "7992739871");
    [reflexivity | vm_compute; discriminate].
Defined.

Lemma rev_pair {A} (x y : list A) a b :
  rev (x ++ a :: b :: y) = (rev y ++ b :: a :: rev x)%list.
Proof.
  rewrite rev_app_distr. cbn [rev]. rewrite <- !app_assoc. reflexivity.
Qed.

(** What exchanging two neighbouring digits does to their joint term. *)
Lemma luhnTerm_swap e x y :
  0 <= x <= 9 -> 0 <= y <= 9 ->
  let k := luhnTerm e x + luhnTerm (negb e) y - (luhnTerm e y + luhnTerm (negb e) x) in
  - 9 < k < 9
  /\ (k = 0 <-> x = y \/ (x = 0 /\ y = 9) \/ (x = 9 /\ y = 0)).
Proof.
  intros Hx Hy. unfold luhnTerm.
  destruct e; cbn [negb];
    destruct (x * 2 >? 9) eqn:Ex, (y * 2 >? 9) eqn:Ey; cbn zeta; lia.
Qed.

Lemma digit_char_value c v (z : ascii) :
  digitVal z = v -> (c = z <-> digitVal c = v).
Proof.
  intros <-. split; [now intros -> | apply digitVal_inj].
Qed.

(** X6. Transposition.  Let a string of decimal digits (whose running sum
    fits [int]) pass [LuhnValid].  Exchanging two neighbouring digits gives
    a string that still returns a nil error, and that passes exactly when
    the two digits are equal or are [0] and [9]: every other transposition
    is detected, the exchange of [09] and [90] never is. *)
Theorem LuhnValid_adjacent_swap l a b r :
  allDigits (l ++ String a (String b r)) = true ->
  9 * Z.of_nat (String.length (l ++ String a (String b r))) <= GoInt.maxInt ->
  LuhnValid (l ++ String a (String b r)) = (true, None) ->
  snd (LuhnValid (l ++ String b (String a r))) = None
  /\ (fst (LuhnValid (l ++ String b (String a r))) = true <->
      a = b \/ (a = "0" /\ b = "9")%char \/ (a = "9" /\ b = "0")%char).
Proof.
  intros Hs Hlen Hv.
  assert (Hs' : allDigits (l ++ String b (String a r)) = true).
  { rewrite allDigits_app in *. cbn [allDigits] in *.
    rewrite !andb_true_iff in *. tauto. }
  assert (Hlen' : 9 * Z.of_nat (String.length (l ++ String b (String a r))) <= GoInt.maxInt).
  { rewrite length_app_string in *. exact Hlen. }
  rewrite (LuhnValid_digits _ Hs Hlen) in Hv.
  rewrite (LuhnValid_digits _ Hs' Hlen'). cbn [fst snd]. split; [reflexivity|].
  assert (Ha : isDigit a = true /\ isDigit b = true).
  { rewrite allDigits_app in Hs. cbn [allDigits] in Hs.
    apply andb_prop in Hs as [_ Hs]. apply andb_prop in Hs as [? Hs].
    apply andb_prop in Hs as [? _]. now split. }
  destruct Ha as [Ha Hb].
  pose proof (digitVal_range a Ha) as Ra. pose proof (digitVal_range b Hb) as Rb.
  unfold luhnSum in *. rewrite digitsOf_app in *.
  change (digitsOf (String a (String b r))) with (digitVal a :: digitVal b :: digitsOf r) in Hv.
  change (digitsOf (String b (String a r))) with (digitVal b :: digitVal a :: digitsOf r).
  rewrite rev_pair in *.
  destruct (luhnSumFromRight_split (rev (digitsOf r)) false) as [e He].
  rewrite He in *. cbn [luhnSumFromRight] in *. rewrite negb_involutive in *.
  destruct (luhnTerm_swap e (digitVal a) (digitVal b) Ra Rb) as [Hk Hz].
  cbn zeta in Hk, Hz.
  rewrite (digit_char_value a 0 "0"), (digit_char_value b 9 "9"),
    (digit_char_value a 9 "9"), (digit_char_value b 0 "0") by reflexivity.
  assert (Eab : a = b <-> digitVal a = digitVal b)
    by (split; [now intros -> | apply digitVal_inj]).
  rewrite Eab, <- Hz, Z.eqb_eq.
  assert (H0 : Z.rem (luhnSumFromRight false (rev (digitsOf r))
                      + luhnTerm e (digitVal b)
                      + (luhnTerm (negb e) (digitVal a)
                         + luhnSumFromRight e (rev (digitsOf l)))) 10 = 0)
    by (apply Z.eqb_eq; congruence).
  apply Z.rem_divide in H0 as [q Hq]; [|discriminate].
  rewrite Z.rem_divide by discriminate.
  split.
  - intros [q' Hq']. lia.
  - intros E. exists q. lia.
Qed.

Lemma LuhnValid_adjacent_swap_witness :
  allDigits ("01" ++ "09"%string) = true
  /\ 9 * Z.of_nat (String.length ("01" ++ "09"%string)) <= GoInt.maxInt
  /\ LuhnValid ("01" ++ "09"%string) = (true, None)
  /\ snd (LuhnValid ("01" ++ "90"%string)) = None
  /\ (fst (LuhnValid ("01" ++ "90"%string)) = true <->
      "0"%char = "9"%char \/ ("0" = "0" /\ "9" = "9")%char \/ ("0" = "9" /\ "9" = "0")%char).
Proof.
  split; [reflexivity|]. split; [vm_compute; discriminate|]. split; [reflexivity|].
  apply (LuhnValid_adjacent_swap "01" "0" "9" "");
    [reflexivity | vm_compute; discriminate | reflexivity].
Defined.


(** ** The error returned *)

Lemma Atoi_nondigit c :
  isDigit c = false -> Atoi (single c) = (0, Some (syntaxError "Atoi" (single c))).
Proof.
  intros H. unfold Atoi, single.
  destruct (Ascii.eqb c "+" || Ascii.eqb c "-"); [reflexivity|].
  cbn [parseDigits]. now rewrite H.
Qed.

Lemma Atoi_head_error c r :
  isDigit c = false -> Ascii.eqb c "+" || Ascii.eqb c "-" = false ->
  Atoi (String c r) = (0, Some (syntaxError "Atoi" (String c r))).
Proof.
  intros H Hs. unfold Atoi. rewrite Hs. cbn [parseDigits]. now rewrite H.
Qed.

Lemma sign_ascii c : Ascii.eqb c "+" || Ascii.eqb c "-" = true -> byteZ c < 0x80.
Proof.
  intros Hs. apply orb_prop in Hs as [E|E]; apply Ascii.eqb_eq in E; subst c;
    reflexivity.
Qed.

Section ExplodeMore.

Import Strings.

Lemma first_lo b :
  fst (Utf8.first b) = 1%nat \/ 0x80 <= fst (snd (Utf8.first b)).
Proof.
  unfold Utf8.first.
  destruct (b <? 0x80); [now left|].
  destruct (b <? 0xC2); [now left|].
  destruct (b <? 0xE0); [right; cbn; lia|].
  destruct (b =? 0xE0); [right; cbn; lia|].
  destruct (b <? 0xED); [right; cbn; lia|].
  destruct (b =? 0xED); [right; cbn; lia|].
  destruct (b <? 0xF0); [right; cbn; lia|].
  destruct (b =? 0xF0); [right; cbn; lia|].
  destruct (b <? 0xF4); [right; cbn; lia|].
  destruct (b =? 0xF4); [right; cbn; lia|].
  now left.
Qed.

Lemma runeSize_pos c t : exists m, Utf8.runeSize (String c t) = S m.
Proof.
  unfold Utf8.runeSize.
  destruct (Utf8.first (byteZ c)) as [sz [lo hi]].
  repeat match goal with
         | |- context [if ?b then _ else _] => destruct b
         | |- context [match ?s with EmptyString => _ | String _ _ => _ end] =>
             destruct s
         end; eauto.
Qed.

Lemma runeSize_tail c t : highBytes (Utf8.runeSize (String c t) - 1) t.
Proof.
  unfold Utf8.runeSize.
  pose proof (first_lo (byteZ c)) as Hf.
  destruct (Utf8.first (byteZ c)) as [sz [lo hi]]. cbn [fst snd] in Hf.
  destruct (sz =? 1)%nat eqn:E1; [exact I|].
  destruct Hf as [->|Hlo]; [discriminate|].
  destruct (String.length (String c t) <? sz)%nat; [exact I|].
  destruct t as [|s1 t1]; [exact I|].
  destruct (between lo hi (byteZ s1)) eqn:B1; cbn [negb]; [|exact I].
  assert (H1 : 0x80 <= byteZ s1) by (unfold between in B1; lia).
  destruct (sz <=? 2)%nat; [cbn; auto|].
  destruct t1 as [|s2 t2]; [exact I|].
  destruct (Utf8.isCont s2) eqn:B2; cbn [negb]; [|exact I].
  assert (H2 : 0x80 <= byteZ s2) by (unfold Utf8.isCont, between in B2; lia).
  destruct (sz <=? 3)%nat; [cbn; auto|].
  destruct t2 as [|s3 t3]; [exact I|].
  destruct (Utf8.isCont s3) eqn:B3; cbn [negb]; [|exact I].
  assert (H3 : 0x80 <= byteZ s3) by (unfold Utf8.isCont, between in B3; lia).
  cbn; auto.
Qed.

(** A byte below 0x80 is never swallowed by the rune before it: it opens
    an element of its own, and what follows is split as if it stood alone. *)
Lemma explode_until_ascii l :
  forall k c r,
    highBytes k (l ++ String c r) -> byteZ c < 0x80 ->
    exists xs, explodeFrom k (l ++ String c r) = (xs ++ single c :: SplitChars r)%list.
Proof.
  induction l as [|a l IH]; intros k c r Hk Hc.
  - destruct k as [|k]; [|cbn in Hk; lia].
    exists []. apply (explode_ascii c r Hc).
  - cbn [append explodeFrom]. change (String a l ++ String c r) with (String a (l ++ String c r)) in Hk.
    destruct k as [|k].
    + pose proof (runeSize_tail a (l ++ String c r)) as Ht.
      destruct (IH _ c r Ht Hc) as [xs E]. rewrite E.
      eexists (_ :: xs). reflexivity.
    + cbn [highBytes] in Hk. destruct (IH k c r (proj2 Hk) Hc) as [xs E].
      exists xs. exact E.
Qed.

(** An element of the split that does not convert gives the syntax error
    that names it. *)
Lemma explode_error k s :
  forall x, In x (explodeFrom k s) -> snd (Atoi x) <> None ->
            Atoi x = (0, Some (syntaxError "Atoi" x)).
Proof.
  revert k. induction s as [|c t IH]; intros k x Hx Hne; [destruct Hx|].
  cbn [explodeFrom] in Hx. destruct k as [|k]; [|eauto].
  destruct Hx as [<- | Hx]; [|eauto].
  destruct (isDigit c) eqn:Hc.
  - exfalso. apply Hne.
    rewrite runeSize_ascii by (apply isDigit_spec in Hc; lia).
    cbn [substring]. rewrite substring_0_0.
    change (String c "") with (single c). now rewrite (Atoi_digit c Hc).
  - destruct (Ascii.eqb c "+" || Ascii.eqb c "-") eqn:Hs.
    + rewrite runeSize_ascii by now apply sign_ascii.
      cbn [substring]. rewrite substring_0_0. apply (Atoi_nondigit c Hc).
    + destruct (runeSize_pos c t) as [m ->].
      cbn [substring]. now apply Atoi_head_error.
Qed.

End ExplodeMore.

Lemma luhnRev_stops ds :
  Forall (fun c => isDigit c = true) ds ->
  forall x v e rest even sum,
    Atoi x = (v, Some e) ->
    luhnRev (map single ds ++ x :: rest) even sum = (false, Some e).
Proof.
  induction 1 as [|c ds Hc _ IH]; intros x v e rest even sum Hx;
    cbn [map app luhnRev].
  - now rewrite Hx.
  - rewrite (Atoi_digit c Hc). eapply IH; eauto.
Qed.

Lemma luhnRev_error_source rs :
  forall even sum e,
    snd (luhnRev rs even sum) = Some e ->
    exists x v, In x rs /\ Atoi x = (v, Some e).
Proof.
  induction rs as [|x r IH]; intros even sum e; cbn [luhnRev].
  - discriminate.
  - destruct (Atoi x) as [digit [e'|]] eqn:E; cbn [snd].
    + intros [= <-]. exists x, digit. split; [now left | exact E].
    + intros H. destruct (IH _ _ _ H) as (y & v & Hy & Ey).
      exists y, v. split; [now right | exact Ey].
Qed.

(** X7. The error names the rightmost offending character.  When a byte
    below 0x80 that is not a digit is followed by decimal digits only,
    [LuhnValid] returns [false] and the syntax error of [Atoi] on that
    byte, whatever stands before it. *)
Theorem LuhnValid_reports_rightmost l c r :
  byteZ c < 0x80 -> isDigit c = false -> allDigits r = true ->
  LuhnValid (l ++ String c r) = (false, Some (syntaxError "Atoi" (String c ""))).
Proof.
  intros Hc Hd Hr. rewrite LuhnValid_luhnRev.
  destruct (explode_until_ascii l 0 c r I Hc) as [xs E].
  unfold Strings.SplitChars at 1. rewrite E, (explode_digits r Hr).
  rewrite rev_app_distr. cbn [rev]. rewrite <- app_assoc. cbn [app].
  rewrite <- map_rev.
  apply luhnRev_stops with (v := 0).
  - apply Forall_rev. now apply allDigits_Forall.
  - apply (Atoi_nondigit c Hd).
Qed.

Lemma LuhnValid_reports_rightmost_witness :
  byteZ "b" < 0x80 /\ isDigit "b" = false /\ allDigits "56" = true
  /\ LuhnValid ("12a4" ++ String "b" "56") = (false, Some (syntaxError "Atoi" "b")).
Proof.
  split; [reflexivity|]. split; [reflexivity|]. split; [reflexivity|].
  apply (LuhnValid_reports_rightmost "12a4" "b" "56"); reflexivity.
Defined.

(** X8. Every error [LuhnValid] returns is the syntax error of [Atoi] on
    one element of the split input, a single character; a range error is
    never returned. *)
Theorem LuhnValid_error_is_syntax card e :
  snd (LuhnValid card) = Some e ->
  exists x, In x (Strings.SplitChars card) /\ e = syntaxError "Atoi" x.
Proof.
  rewrite LuhnValid_luhnRev. intros H.
  destruct (luhnRev_error_source _ _ _ _ H) as (x & v & Hx & Ex).
  apply in_rev in Hx. exists x. split; [exact Hx|].
  assert (Hne : snd (Atoi x) <> None) by (rewrite Ex; discriminate).
  rewrite (explode_error 0 card x Hx Hne) in Ex. congruence.
Qed.

Lemma LuhnValid_error_is_syntax_witness :
  snd (LuhnValid "12a4") = Some (syntaxError "Atoi" "a")
  /\ exists x, In x (Strings.SplitChars "12a4") /\ syntaxError "Atoi" "a" = syntaxError "Atoi" x.
Proof.
  split; [reflexivity|].
  apply (LuhnValid_error_is_syntax "12a4" (syntaxError "Atoi" "a")). reflexivity.
Defined.

(** * strings.Split: nothing is lost *)

Lemma substring_dropBytes m t : substring 0 m t ++ dropBytes m t = t.
Proof.
  revert t. induction m as [|m IH]; intros [|c t]; cbn; try reflexivity.
  now rewrite IH.
Qed.

Lemma concat_explodeFrom s :
  forall k, String.concat "" (Strings.explodeFrom k s) = dropBytes k s.
Proof.
  induction s as [|c t IH]; intros k.
  - destruct k; reflexivity.
  - cbn [Strings.explodeFrom]. destruct k as [|k]; [|apply IH].
    destruct (runeSize_pos c t) as [m ->].
    replace (S m - 1)%nat with m by lia.
    cbn [substring dropBytes].
    assert (E : forall x xs, String.concat "" (x :: xs) = x ++ String.concat "" xs).
    { intros x [|y ys]; cbn [String.concat]; [|reflexivity].
      clear. induction x; cbn; congruence. }
    rewrite E, IH. cbn [append]. now rewrite substring_dropBytes.
Qed.

Lemma runeSize_le c t : (Utf8.runeSize (String c t) <= 4)%nat.
Proof.
  unfold Utf8.runeSize.
  destruct (Utf8.first (byteZ c)) as [sz [lo hi]].
  repeat match goal with
         | |- context [if ?b then _ else _] => destruct b
         | |- context [match ?s with EmptyString => _ | String _ _ => _ end] =>
             destruct s
         end; lia.
Qed.

Lemma substring_length_le n :
  forall u, (String.length (substring 0 n u) <= n)%nat.
Proof.
  induction n as [|n IH]; intros [|a u]; cbn; try lia.
  specialize (IH u). lia.
Qed.

Lemma explodeFrom_sizes s :
  forall k, Forall (fun x => (1 <= String.length x <= 4)%nat) (Strings.explodeFrom k s).
Proof.
  induction s as [|c t IH]; intros k; cbn [Strings.explodeFrom]; [constructor|].
  destruct k as [|k]; [|apply IH].
  constructor; [|apply IH].
  destruct (runeSize_pos c t) as [m Em].
  pose proof (runeSize_le c t) as Hle.
  rewrite Em in *. cbn [substring String.length].
  pose proof (substring_length_le m t). lia.
Qed.

(** X9. Joining the elements of [strings.Split(card, "")] gives the input
    back, and no element is empty or longer than four bytes: the loop of
    [LuhnValid] meets every byte of the input exactly once. *)
Theorem SplitChars_join card :
  String.concat "" (Strings.SplitChars card) = card
  /\ Forall (fun x => (1 <= String.length x <= 4)%nat) (Strings.SplitChars card).
Proof.
  split; [apply (concat_explodeFrom card 0) | apply explodeFrom_sizes].
Qed.

(** * strconv: formatting and parsing *)

Lemma string_app_nil_r (s : string) : s ++ "" = s.
Proof. induction s; cbn; congruence. Qed.

Lemma string_app_assoc (s t u : string) : (s ++ t) ++ u = s ++ (t ++ u).
Proof. induction s; cbn; congruence. Qed.

Lemma digitChar_spec d :
  0 <= d <= 9 -> isDigit (digitChar d) = true /\ digitVal (digitChar d) = d.
Proof.
  intros Hd.
  assert (E : byteZ (digitChar d) = 48 + d).
  { unfold byteZ, digitChar. rewrite N_ascii_embedding by lia. lia. }
  split; [apply isDigit_spec | unfold digitVal]; lia.
Qed.

Lemma parseDigits_app d :
  forall acc t,
    parseDigits acc (d ++ t)
    = match parseDigits acc d with
      | Some v => parseDigits v t
      | None => None
      end.
Proof.
  induction d as [|c d IH]; intros acc t; cbn [append parseDigits]; [reflexivity|].
  destruct (isDigit c); [apply IH | reflexivity].
Qed.

(** [formatBits] writes a nonempty run of digits that reads back as [u]. *)
Lemma formatBits_S f u tail :
  formatBits (S f) u tail
  = if u <? 10 then String (digitChar u) tail
    else formatBits f (u / 10) (String (digitChar (u mod 10)) tail).
Proof. reflexivity. Qed.

Lemma formatBits_parse fuel :
  forall u tail,
    0 <= u < 10 ^ Z.of_nat (S fuel) ->
    exists c d,
      formatBits (S fuel) u tail = String c d ++ tail
      /\ isDigit c = true
      /\ parseDigits 0 (String c d) = Some u.
Proof.
  induction fuel as [|f IH]; intros u tail Hu;
    rewrite formatBits_S; destruct (u <? 10) eqn:E.
  - destruct (digitChar_spec u ltac:(lia)) as [Hd Hv].
    exists (digitChar u), "". cbn [append parseDigits]. rewrite Hd, Hv.
    repeat split.
  - cbn in Hu. lia.
  - destruct (digitChar_spec u ltac:(lia)) as [Hd Hv].
    exists (digitChar u), "". cbn [append parseDigits]. rewrite Hd, Hv.
    repeat split.
  - assert (Hq : 0 <= u / 10 < 10 ^ Z.of_nat (S f)).
    { rewrite (Nat2Z.inj_succ (S f)), Z.pow_succ_r in Hu by lia.
      split; [apply Z.div_pos; lia | apply Z.div_lt_upper_bound; lia]. }
    destruct (IH (u / 10) (String (digitChar (u mod 10)) tail) Hq)
      as (c & d & Ef & Hc & Hp).
    pose proof (Z.mod_pos_bound u 10 ltac:(lia)) as Hm.
    destruct (digitChar_spec (u mod 10) ltac:(lia)) as [Hd Hv].
    exists c, (d ++ String (digitChar (u mod 10)) "").
    split; [|split; [exact Hc|]].
    + rewrite Ef. cbn [append]. f_equal.
      rewrite string_app_assoc. reflexivity.
    + change (String c (d ++ String (digitChar (u mod 10)) ""))
        with (String c d ++ String (digitChar (u mod 10)) "").
      rewrite parseDigits_app, Hp. cbn [parseDigits]. rewrite Hd, Hv.
      f_equal. pose proof (Z.div_mod u 10 ltac:(lia)). lia.
Qed.

Lemma pow10_20 : 10 ^ Z.of_nat 20 = 100000000000000000000.
Proof. vm_compute. reflexivity. Qed.

Lemma Atoi_FormatInt n :
  GoInt.minInt <= n <= GoInt.maxInt -> Atoi (FormatInt n) = (n, None).
Proof.
  unfold GoInt.minInt, GoInt.maxInt, FormatInt. intros Hn.
  destruct (n <? 0) eqn:En.
  - destruct (formatBits_parse 19 (- n) "" ltac:(rewrite pow10_20; lia)) as (c & d & Ef & Hc & Hp).
    rewrite Ef, string_app_nil_r. unfold Atoi.
    cbn [Ascii.eqb Bool.eqb orb]. change (Ascii.eqb "-" "-") with true.
    change (Ascii.eqb "-" "+") with false. cbn [orb negb andb].
    rewrite Hp.
    destruct (- n >? 2 ^ 63) eqn:E; [lia|]. f_equal. lia.
  - destruct (formatBits_parse 19 n "" ltac:(rewrite pow10_20; lia)) as (c & d & Ef & Hc & Hp).
    rewrite Ef, string_app_nil_r. unfold Atoi.
    destruct (isDigit_not_sign c Hc) as [-> ->]. cbn [orb negb andb].
    rewrite Hp.
    destruct (n >=? 2 ^ 63) eqn:E; [lia | reflexivity].
Qed.

(** X10. Round trip.  For every value of [int], [Atoi] reads the output of
    [Itoa] (and of [FormatInt] in base 10) back as the same number, with a
    nil error. *)
Theorem Atoi_Itoa n :
  GoInt.minInt <= n <= GoInt.maxInt ->
  Atoi (Itoa n) = (n, None) /\ Atoi (FormatInt n) = (n, None).
Proof.
  intros Hn. split; apply (Atoi_FormatInt n Hn).
Qed.

Lemma Atoi_Itoa_witness :
  GoInt.minInt <= -9223372036854775808 <= GoInt.maxInt
  /\ Atoi (Itoa (-9223372036854775808)) = (-9223372036854775808, None)
  /\ Atoi (FormatInt (-9223372036854775808)) = (-9223372036854775808, None).
Proof.
  split; [vm_compute; split; discriminate|].
  apply (Atoi_Itoa (-9223372036854775808)). vm_compute; split; discriminate.
Defined.

(** * net/url: query escaping *)

Section Escape.

Import Url.

Lemma sixteen d :
  0 <= d < 16 ->
  d = 0 \/ d = 1 \/ d = 2 \/ d = 3 \/ d = 4 \/ d = 5 \/ d = 6 \/ d = 7 \/
  d = 8 \/ d = 9 \/ d = 10 \/ d = 11 \/ d = 12 \/ d = 13 \/ d = 14 \/ d = 15.
Proof. lia. Qed.

Lemma upperhex_byte d :
  0 <= d < 16 -> byteZ (upperhex d) = if d <? 10 then 48 + d else 55 + d.
Proof.
  intros H. apply sixteen in H.
  repeat (destruct H as [-> | H]; [reflexivity|]). subst d. reflexivity.
Qed.


Lemma upperhex_inj a b :
  0 <= a < 16 -> 0 <= b < 16 -> upperhex a = upperhex b -> a = b.
Proof.
  intros Ha Hb E. apply (f_equal byteZ) in E.
  rewrite !upperhex_byte in E by assumption.
  destruct (a <? 10) eqn:Ea, (b <? 10) eqn:Eb; lia.
Qed.

Lemma nibbles c : 0 <= byteZ c / 16 < 16 /\ 0 <= byteZ c mod 16 < 16.
Proof.
  pose proof (byteZ_bound c). split.
  - split; [apply Z.div_pos; lia | apply Z.div_lt_upper_bound; lia].
  - apply Z.mod_pos_bound. lia.
Qed.



(** The three shapes of an escaped byte. *)
Lemma escapeByte_cases c :
  (c = " "%char /\ escapeByte c = "+")
  \/ (shouldEscape c = true
      /\ escapeByte c
         = String "%" (String (upperhex (byteZ c / 16)) (String (upperhex (byteZ c mod 16)) "")))
  \/ (shouldEscape c = false /\ escapeByte c = String c "").
Proof.
  unfold escapeByte. destruct (Ascii.eqb_spec c " "); [now left|].
  destruct (shouldEscape c); [right; left | right; right]; now split.
Qed.

Lemma QueryEscape_inj s :
  forall s', QueryEscape s = QueryEscape s' -> s = s'.
Proof.
  induction s as [|c t IH]; intros [|c' t']; cbn [QueryEscape].
  - reflexivity.
  - destruct (escapeByte_cases c') as [[_ ->]|[[_ ->]|[_ ->]]]; discriminate.
  - destruct (escapeByte_cases c) as [[_ ->]|[[_ ->]|[_ ->]]]; discriminate.
  - destruct (escapeByte_cases c) as [[-> ->]|[[Hc ->]|[Hc ->]]];
      destruct (escapeByte_cases c') as [[-> ->]|[[Hc' ->]|[Hc' ->]]];
      cbn [append]; intros H; injection H; clear H; intros; subst;
      try discriminate.
    + f_equal. now apply IH.
    + f_equal; [|now apply IH].
      destruct (nibbles c) as [? ?], (nibbles c') as [? ?].
      apply byteZ_inj.
      assert (byteZ c / 16 = byteZ c' / 16) by now apply upperhex_inj.
      assert (byteZ c mod 16 = byteZ c' mod 16) by now apply upperhex_inj.
      pose proof (Z.div_mod (byteZ c) 16 ltac:(lia)).
      pose proof (Z.div_mod (byteZ c') 16 ltac:(lia)). lia.
    + f_equal. now apply IH.
Qed.

End Escape.

(** * url.Values *)



(** * The clients' requests *)

Section ClientFacts.

Variable Err : Type.
Variables Charge Invoice CardParams : Type.
Variable emptyCharge : Charge.
Variable emptyInvoice : Invoice.
Variable query :
  forall T : Type, string -> string -> option Url.Values -> T -> T * option Err.



(** X13. A charge without card details names either a token or a customer,
    never both.  When [params.Card] is nil, [Create] posts to [/v1/charges]
    the amount, currency and description it was given, with the key [card]
    holding the token when the token is not empty and no [customer] key,
    and otherwise the key [customer] holding the customer (be it empty) and
    no [card] key. *)
Theorem Create_token_or_customer
    (appendCardParamsToValues : CardParams -> Url.Values -> Url.Values)
    (params : ChargeParams CardParams) :
  Card _ params = None ->
  exists values,
    ChargeClient_Create Err Charge CardParams emptyCharge query
      appendCardParamsToValues params
    = query Charge "POST" "/v1/charges" (Some values) emptyCharge
    /\ Url.lookup "amount" values = [FormatInt (Amount _ params)]
    /\ Url.lookup "currency" values = [Currency _ params]
    /\ Url.lookup "description" values = [Desc _ params]
    /\ (Token _ params <> "" ->
        Url.lookup "card" values = [Token _ params]
        /\ Url.lookup "customer" values = [])
    /\ (Token _ params = "" ->
        Url.lookup "customer" values = [Customer _ params]
        /\ Url.lookup "card" values = []).
Proof.
  intros Hc. unfold ChargeClient_Create. rewrite Hc.
  destruct (Token _ params) as [|t ts] eqn:Et; cbn [String.length Nat.ltb Nat.leb];
    eexists; (split; [reflexivity|]); repeat split; intros; try reflexivity;
    congruence.
Qed.

End ClientFacts.

Lemma Create_token_or_customer_witness :
  let params := mkChargeParams unit 400 "usd" "cus_1" None "" "Calzone" in
  let query := fun (T : Type) (_ _ : string) (_ : option Url.Values) (v : T) =>
                 (v, @None unit) in
  Card _ params = None
  /\ exists values,
      ChargeClient_Create unit unit unit tt query (fun _ v => v) params
      = query unit "POST" "/v1/charges" (Some values) tt
      /\ Url.lookup "amount" values = [FormatInt (Amount _ params)]
      /\ Url.lookup "currency" values = [Currency _ params]
      /\ Url.lookup "description" values = [Desc _ params]
      /\ (Token _ params <> "" ->
          Url.lookup "card" values = [Token _ params]
          /\ Url.lookup "customer" values = [])
      /\ (Token _ params = "" ->
          Url.lookup "customer" values = [Customer _ params]
          /\ Url.lookup "card" values = []).
Proof.
  intros params query. split; [reflexivity|].
  apply (Create_token_or_customer unit unit unit tt query (fun _ v => v) params).
  reflexivity.
Defined.

(** X12. Different identifiers are asked for at different paths.  If
    [Retrieve] makes the same call for two identifiers whatever [query] is,
    the identifiers are equal: escaping merges no two of them. *)
Theorem Retrieve_separates_ids id id' :
  (forall (Err Charge : Type) (emptyCharge : Charge)
          (query : forall T : Type,
              string -> string -> option Url.Values -> T -> T * option Err),
      ChargeClient_Retrieve Err Charge emptyCharge query id
      = ChargeClient_Retrieve Err Charge emptyCharge query id') ->
  id = id'.
Proof.
  intros H.
  specialize (H string unit tt (fun T _ path _ v => (v, Some path))).
  unfold ChargeClient_Retrieve in H.
  injection H as H. now apply QueryEscape_inj.
Qed.

Lemma Retrieve_separates_ids_witness :
  (forall (Err Charge : Type) (emptyCharge : Charge)
          (query : forall T : Type,
              string -> string -> option Url.Values -> T -> T * option Err),
      ChargeClient_Retrieve Err Charge emptyCharge query "ch_1/2"
      = ChargeClient_Retrieve Err Charge emptyCharge query "ch_1/2")
  /\ "ch_1/2" = "ch_1/2".
Proof.
  split; [reflexivity|].
  apply (Retrieve_separates_ids "ch_1/2" "ch_1/2"). reflexivity.
Defined.

Example Retrieve_path_of_slash :
  ChargeClient_Retrieve string unit tt (fun T _ path _ v => (v, Some path)) "ch 1/2?x"
  = (tt, Some "/v1/charges/ch+1%2F2%3Fx").
Proof. reflexivity. Qed.

(** X14. Listing.  [list] of the charge client sends one GET to
    [/v1/charges] whose [count] and [offset] are decimal numerals that
    [Atoi] reads back as the numbers given, and whose [customer] key holds
    the identifier when it is not empty and is absent when it is; when
    [query] returns an error the list returned is nil, and otherwise it is
    the decoded data.  The same holds of the invoice client at
    [/v1/invoices]. *)
Theorem list_request
    (Err Charge Invoice : Type)
    (query : forall T : Type,
        string -> string -> option Url.Values -> T -> T * option Err)
    (id : string) (count offset : Z) :
  GoInt.minInt <= count <= GoInt.maxInt ->
  GoInt.minInt <= offset <= GoInt.maxInt ->
  exists values c o,
    Url.lookup "count" values = [c] /\ Atoi c = (count, None)
    /\ Url.lookup "offset" values = [o] /\ Atoi o = (offset, None)
    /\ Url.lookup "customer" values = (if String.eqb id "" then [] else [id])
    /\ ChargeClient_list Err Charge query id count offset
       = (let r := query (list Charge) "GET" "/v1/charges" (Some values) [] in
          match snd r with
          | Some e => ([], Some e)
          | None => (fst r, None)
          end)
    /\ InvoiceClient_list Err Invoice query id count offset
       = (let r := query (list Invoice) "GET" "/v1/invoices" (Some values) [] in
          match snd r with
          | Some e => ([], Some e)
          | None => (fst r, None)
          end).
Proof.
  intros Hc Ho. unfold ChargeClient_list, InvoiceClient_list.
  exists (if negb (String.eqb id "")
          then Url.Add "customer" id [("count", [Itoa count]); ("offset", [Itoa offset])]
          else [("count", [Itoa count]); ("offset", [Itoa offset])]),
    (Itoa count), (Itoa offset).
  destruct (String.eqb id "") eqn:E; cbn [negb];
    (split; [reflexivity|]); (split; [now apply Atoi_FormatInt|]);
    (split; [reflexivity|]); (split; [now apply Atoi_FormatInt|]);
    (split; [reflexivity|]);
    (split; cbv zeta;
     match goal with
     | |- context [query ?T ?m ?p ?v ?x] => destruct (query T m p v x) as [resp [e|]]
     end; reflexivity).
Qed.

Lemma list_request_witness :
  let query := fun (T : Type) (_ _ : string) (_ : option Url.Values) (v : T) =>
                 (v, @None unit) in
  GoInt.minInt <= 10 <= GoInt.maxInt
  /\ GoInt.minInt <= 0 <= GoInt.maxInt
  /\ exists values c o,
      Url.lookup "count" values = [c] /\ Atoi c = (10, None)
      /\ Url.lookup "offset" values = [o] /\ Atoi o = (0, None)
      /\ Url.lookup "customer" values = (if String.eqb "cus_1" "" then [] else ["cus_1"])
      /\ ChargeClient_list unit unit query "cus_1" 10 0
         = (let r := query (list unit) "GET" "/v1/charges" (Some values) [] in
            match snd r with
            | Some e => ([], Some e)
            | None => (fst r, None)
            end)
      /\ InvoiceClient_list unit unit query "cus_1" 10 0
         = (let r := query (list unit) "GET" "/v1/invoices" (Some values) [] in
            match snd r with
            | Some e => ([], Some e)
            | None => (fst r, None)
            end).
Proof.
  intros query.
  split; [vm_compute; split; discriminate|].
  split; [vm_compute; split; discriminate|].
  apply (list_request unit unit unit query "cus_1" 10 0);
    vm_compute; split; discriminate.
Defined.
